(** * cc2olx: the OLX exporter ([cc2olx/olx.py])

    A shallow embedding of [OlxExport] and [process_link], and the
    properties of the tree mapping, the content builders, the link
    classifier and the static-link rewriter.

    Conventions of the model.
    - A Python [str] is a [string]: its characters when they are ASCII, the
      bytes of its UTF-8 encoding otherwise.  The character classes of [re]
      ([\s], [\w], [.]) are Python's on the ASCII range; the bytes above
      127 belong to neither [\s] nor [\w].
    - A [dict] with a fixed set of optional keys is a record of [option]
      fields; a missing key read by subscript raises [KeyError].
    - An exception is a value of [exn]; a call that may raise returns a
      [result].  The tree under construction is passed explicitly: a call
      that mutates an element returns the element after the call, together
      with the exception that interrupted it, if any. *)

From Stdlib Require Import String Ascii List Bool Arith Lia.
Import ListNotations.
Open Scope list_scope.
Open Scope string_scope.

Set Implicit Arguments.
Set Warnings "-register-all".

(** ** Strings *)

Module Str.

(** The double quote, as a one-character string. *)
Definition dquote : string := String (ascii_of_nat 34) EmptyString.

(** [sub in s]. *)
Fixpoint contains (sub s : string) : bool :=
  prefix sub s ||
  match s with
  | EmptyString => false
  | String _ s' => contains sub s'
  end.

(** The scan of [str.replace] for a non-empty [old]: [skip] counts the
    characters of [s] still covered by the occurrence just replaced. *)
Fixpoint replace_from (old new s : string) (skip : nat) : string :=
  match skip with
  | S n =>
      match s with
      | EmptyString => EmptyString
      | String _ s' => replace_from old new s' n
      end
  | O =>
      match s with
      | EmptyString => EmptyString
      | String c s' =>
          if prefix old s
          then new ++ replace_from old new s' (String.length old - 1)
          else String c (replace_from old new s' 0)
      end
  end.

(** [str.replace] with an empty [old]: [new] goes before every character
    and at the end. *)
Fixpoint intersperse (new s : string) : string :=
  match s with
  | EmptyString => new
  | String c s' => new ++ String c (intersperse new s')
  end.

(** [s.replace(old, new)]: every non-overlapping occurrence, leftmost
    first. *)
Definition replace (old new s : string) : string :=
  match old with
  | EmptyString => intersperse new s
  | String _ _ => replace_from old new s 0
  end.

(** [sep.join(l)] is [String.concat sep l]. *)
Definition join (sep : string) (l : list string) : string := String.concat sep l.

End Str.

(** ** The fragment of [re] the exporter uses

    Both patterns of the source are sequences of character classes, each
    taken once or under one of the quantifiers [*], [+], [+?], with a
    capture group around a single quantified class. *)

Module Re.

Inductive quantifier :=
| Once      (* x   *)
| Greedy0   (* x*  *)
| Greedy1   (* x+  *)
| Lazy1.    (* x+? *)

Record item := Item {
  chars : ascii -> bool;
  quant : quantifier;
  group : bool
}.

Definition regex := list item.

(** Character classes. *)
Definition char (c : ascii) : ascii -> bool := Ascii.eqb c.

(** [.] without DOTALL: anything but a newline. *)
Definition dot (c : ascii) : bool := negb (Ascii.eqb c (ascii_of_nat 10)).

(** [\s]: tab, newline, vertical tab, form feed, carriage return, the four
    separators 28..31 and the space. *)
Definition space (c : ascii) : bool :=
  let n := nat_of_ascii c in
  (((9 <=? n) && (n <=? 13)) || ((28 <=? n) && (n <=? 32)))%nat.

(** [\w]: letters, digits and the underscore. *)
Definition word (c : ascii) : bool :=
  let n := nat_of_ascii c in
  (((48 <=? n) && (n <=? 57)) || ((65 <=? n) && (n <=? 90)) ||
   (n =? 95) || ((97 <=? n) && (n <=? 122)))%nat.

(** [[-\w]]. *)
Definition hyphen_or_word (c : ascii) : bool :=
  Ascii.eqb c "-"%char || word c.

(** A literal text, one [Once] item per character. *)
Fixpoint lit (s : string) : regex :=
  match s with
  | EmptyString => []
  | String c s' => Item (char c) Once false :: lit s'
  end.

(** One item against the text, with [k] the match of the rest of the
    pattern: the result is the text the item consumed and what [k]
    returned.  Alternatives are tried in the order of the backtracking
    matcher: longest first for the greedy quantifiers, shortest first
    for the lazy one. *)
Section Item.
Variable R : Type.
Variable cls : ascii -> bool.
Variable k : string -> option R.

Definition consumed (c : ascii) (r : option (string * R)) : option (string * R) :=
  match r with
  | Some (w, x) => Some (String c w, x)
  | None => None
  end.

Definition stop (s : string) : option (string * R) :=
  match k s with
  | Some x => Some (EmptyString, x)
  | None => None
  end.

Definition once (s : string) : option (string * R) :=
  match s with
  | String c s' => if cls c then consumed c (stop s') else None
  | EmptyString => None
  end.

Fixpoint greedy0 (s : string) : option (string * R) :=
  match s with
  | String c s' =>
      if cls c then
        match consumed c (greedy0 s') with
        | Some r => Some r
        | None => stop s
        end
      else stop s
  | EmptyString => stop s
  end.

Definition greedy1 (s : string) : option (string * R) :=
  match s with
  | String c s' => if cls c then consumed c (greedy0 s') else None
  | EmptyString => None
  end.

Fixpoint lazy0 (s : string) : option (string * R) :=
  match stop s with
  | Some r => Some r
  | None =>
      match s with
      | String c s' => if cls c then consumed c (lazy0 s') else None
      | EmptyString => None
      end
  end.

Definition lazy1 (s : string) : option (string * R) :=
  match s with
  | String c s' => if cls c then consumed c (lazy0 s') else None
  | EmptyString => None
  end.

Definition run (q : quantifier) : string -> option (string * R) :=
  match q with
  | Once => once
  | Greedy0 => greedy0
  | Greedy1 => greedy1
  | Lazy1 => lazy1
  end.
End Item.

(** The pattern against a prefix of the text: the captured groups in
    order, and the text after the match. *)
Fixpoint match_here (p : regex) : string -> option (list string * string) :=
  match p with
  | [] => fun s => Some ([], s)
  | it :: p' => fun s =>
      match run (chars it) (match_here p') (quant it) s with
      | Some (w, (gs, rest)) => Some (if group it then w :: gs else gs, rest)
      | None => None
      end
  end.

(** [match.group(1)]. *)
Definition group1 (gs : list string) : string := hd EmptyString gs.

(** [re.search(p, s)]: the match at the leftmost position that has one;
    the captured groups. *)
Fixpoint search (p : regex) (s : string) : option (list string) :=
  match match_here p s with
  | Some (gs, _) => Some gs
  | None =>
      match s with
      | EmptyString => None
      | String _ s' => search p s'
      end
  end.

(** [re.findall(p, s)] for a pattern with one group: the group of every
    match, the matches non-overlapping and leftmost first.  [skip] counts
    the characters still covered by the last match. *)
Fixpoint findall_from (p : regex) (s : string) (skip : nat) : list string :=
  match skip with
  | S n =>
      match s with
      | EmptyString => []
      | String _ s' => findall_from p s' n
      end
  | O =>
      match match_here p s with
      | Some (gs, rest) =>
          group1 gs ::
          match s with
          | EmptyString => []
          | String _ s' => findall_from p s' (String.length s - String.length rest - 1)
          end
      | None =>
          match s with
          | EmptyString => []
          | String _ s' => findall_from p s' 0
          end
      end
  end.

Definition findall (p : regex) (s : string) : list string := findall_from p s 0.

(** Every character of [s] is in the class. *)
Fixpoint all_in (cls : ascii -> bool) (s : string) : bool :=
  match s with
  | EmptyString => true
  | String c s' => cls c && all_in cls s'
  end.



End Re.

(** ** [urllib.parse.unquote] *)

Module Urllib.

(** The value of a hexadecimal digit, either case. *)
Definition hexval (c : ascii) : option nat :=
  let n := nat_of_ascii c in
  if ((48 <=? n) && (n <=? 57))%nat then Some (n - 48)
  else if ((65 <=? n) && (n <=? 70))%nat then Some (n - 55)
  else if ((97 <=? n) && (n <=? 102))%nat then Some (n - 87)
  else None.

(** Every [%XX] with two hexadecimal digits becomes the character of that
    code; a [%] not followed by two such digits stays.  (A decoded code
    above 127 stays the byte it is: the text is read as its UTF-8
    encoding.) *)
Fixpoint unquote_escapes (s : string) : string :=
  match s with
  | EmptyString => EmptyString
  | String c s' =>
      if Ascii.eqb c "%"%char then
        match s' with
        | String a (String b rest) =>
            match hexval a, hexval b with
            | Some x, Some y => String (ascii_of_nat (16 * x + y)) (unquote_escapes rest)
            | _, _ => String c (unquote_escapes s')
            end
        | _ => String c (unquote_escapes s')
        end
      else String c (unquote_escapes s')
  end.

(** [unquote(string)]: a text without [%] is returned as it is. *)
Definition unquote (s : string) : string :=
  if negb (Str.contains "%" s) then s else unquote_escapes s.

End Urllib.

(** ** Exceptions *)

Inductive exn :=
| OlxExportException (message : string)
| KeyError (key : string)
| AttributeError (name : string)     (* a method a node does not have *)
| HierarchyRequestErr.               (* a child given to a childless node *)

Inductive result (A : Type) :=
| Ok (a : A)
| Raise (e : exn).

Arguments Ok {A} a.
Arguments Raise {A} e.

Definition bind {A B : Type} (r : result A) (f : A -> result B) : result B :=
  match r with
  | Ok a => f a
  | Raise e => Raise e
  end.

Notation "x <- r ;; k" := (bind r (fun x => k))
  (at level 61, r at next level, right associativity).

(** [d[key]] on an optional key. *)
Definition subscript {A : Type} (key : string) (v : option A) : result A :=
  match v with
  | Some a => Ok a
  | None => Raise (KeyError key)
  end.

(** ** The data model *)

(** A node of the normalized outline: a [dict] with the optional keys
    [title], [identifierref] and [children]. *)
Inductive OutlineNode := Outline {
  title : option string;
  identifierref : option string;
  children : option (list OutlineNode)
}.

(** The details of a resource: a [dict] whose keys depend on the content
    type ([html]; [href], [text]; [youtube]; the keys of an LTI tool). *)
Module Details.
Record t := Build {
  html : option string;
  href : option string;
  text : option string;
  youtube : option string;
  title : option string;
  description : option string;
  launch_url : option string;
  height : option string;
  width : option string;
  custom_parameters : option (list (string * string))
}.

(** [{}] *)
Definition empty : t := Build None None None None None None None None None None.

(** [{"html": h}] *)
Definition of_html (h : string) : t :=
  Build (Some h) None None None None None None None None None.

(** [{"youtube": y}] *)
Definition of_youtube (y : string) : t :=
  Build None None None (Some y) None None None None None None.

(** [d.get(key, default)] *)
Definition get {A : Type} (v : option A) (default : A) : A :=
  match v with
  | Some a => a
  | None => default
  end.
End Details.

(** ** [xml.dom.minidom] *)

Module Dom.

Inductive Node :=
| Element (tagName : string) (attributes : list (string * string)) (childNodes : list Node)
| CDATASection (data : string)
| Comment (data : string).

(** The document: its top-level nodes. *)
Record Document := { documentNodes : list Node }.

Definition createElement (tagName : string) : Node := Element tagName [] [].
Definition createCDATASection (data : string) : Node := CDATASection data.
Definition createComment (data : string) : Node := Comment data.

(** The attributes keep the order in which their names were first set; a
    name set again takes the new value in place. *)
Fixpoint set (attributes : list (string * string)) (name value : string)
  : list (string * string) :=
  match attributes with
  | [] => [(name, value)]
  | (n, v) :: rest =>
      if String.eqb n name then (n, value) :: rest
      else (n, v) :: set rest name value
  end.

(** [node.setAttribute(name, value)]: elements only. *)
Definition setAttribute (node : Node) (name value : string) : result Node :=
  match node with
  | Element tag attributes childNodes =>
      Ok (Element tag (set attributes name value) childNodes)
  | _ => Raise (AttributeError "setAttribute")
  end.

(** [node.appendChild(child)]: text nodes and comments take no child. *)
Definition appendChild (node child : Node) : result Node :=
  match node with
  | Element tag attributes childNodes =>
      Ok (Element tag attributes (childNodes ++ [child])%list)
  | _ => Raise HierarchyRequestErr
  end.

Definition childNodes (node : Node) : list Node :=
  match node with
  | Element _ _ c => c
  | _ => []
  end.

Fixpoint lookup (attributes : list (string * string)) (name : string) : option string :=
  match attributes with
  | [] => None
  | (n, v) :: rest => if String.eqb n name then Some v else lookup rest name
  end.

(** The value of an attribute of an element, when it has it. *)
Definition attribute (node : Node) (name : string) : option string :=
  match node with
  | Element _ attributes _ => lookup attributes name
  | _ => None
  end.

End Dom.
Import Dom.

(** ** [process_link] *)

(** [r"youtube.com/watch\?v=([-\w]+)"] *)
Definition youtube_pattern : Re.regex :=
  (Re.lit "youtube" ++ [Re.Item Re.dot Re.Once false] ++ Re.lit "com/watch?v=" ++
   [Re.Item Re.hyphen_or_word Re.Greedy1 true])%list.

Definition process_link (details : Details.t) : result (string * Details.t) :=
  href <- subscript "href" (Details.href details) ;;
  match Re.search youtube_pattern href with
  | Some ytmatch => Ok ("video", Details.of_youtube (Re.group1 ytmatch))
  | None =>
      Ok ("html",
          Details.of_html
            ("<a href='" ++ href ++ "'>" ++ Details.get (Details.text details) "" ++ "</a>"))
  end.

(** ** [OlxExport] *)

(** What the exporter asks of the cartridge. *)
Record Cartridge := {
  get_course_org : string;
  get_title : string;
  normalized_children : list OutlineNode;          (* normalized['children'] *)
  get_resource_content : string -> option string * Details.t
}.

(* content types *)
Definition HTML := "html".
Definition LINK := "link".
Definition VIDEO := "video".
Definition LTI := "lti".
Definition QTI := "qti".

(** [r'src\s*=\s*"(.+?)"'] *)
Definition src_pattern : Re.regex :=
  (Re.lit "src" ++ [Re.Item Re.space Re.Greedy0 false] ++ Re.lit "=" ++
   [Re.Item Re.space Re.Greedy0 false] ++ Re.lit Str.dquote ++
   [Re.Item Re.dot Re.Lazy1 true] ++ Re.lit Str.dquote)%list.

Definition new_src (src : string) : string :=
  Str.replace "$IMS-CC-FILEBASE$" "/static" (Urllib.unquote src).

(** One turn of the loop of [_process_static_links]. *)
Definition rewrite_src (html src : string) : string :=
  if Str.contains "IMS-CC-FILEBASE" src
  then Str.replace src (new_src src) html
  else html.

Definition _process_static_links (html : string) : string :=
  let srcs := Re.findall src_pattern html in
  fold_left rewrite_src srcs html.

Definition _create_lti_node (details : Details.t) : result Node :=
  let node := createElement "lti_consumer" in
  params <- subscript "custom_parameters" (Details.custom_parameters details) ;;
  let custom_parameters :=
    "[" ++ Str.join ", "
             (map (fun '(key, value) => Str.dquote ++ key ++ "=" ++ value ++ Str.dquote)
                  params)
        ++ "]" in
  node <- setAttribute node "custom_parameters" custom_parameters ;;
  description <- subscript "description" (Details.description details) ;;
  node <- setAttribute node "description" description ;;
  title <- subscript "title" (Details.title details) ;;
  node <- setAttribute node "display_name" title ;;
  height <- subscript "height" (Details.height details) ;;
  node <- setAttribute node "inline_height" height ;;
  width <- subscript "width" (Details.width details) ;;
  node <- setAttribute node "inline_width" width ;;
  launch_url <- subscript "launch_url" (Details.launch_url details) ;;
  node <- setAttribute node "launch_url" launch_url ;;
  node <- setAttribute node "modal_height" height ;;
  node <- setAttribute node "modal_width" width ;;
  node <- setAttribute node "xblock-family" "xblock.v1" ;;
  Ok node.

Section OlxExport.

Variable cartridge : Cartridge.

(** [QtiExport(doc).create_qti_node(details)], of [cc2olx.qti]: the nodes
    of an assessment, new and ready to attach. *)
Variable create_qti_node : Details.t -> list Node.

Definition _get_content (element_data : OutlineNode) : result (string * Details.t) :=
  let '(content_type, details) :=
    match identifierref element_data with
    | Some idref => get_resource_content cartridge idref
    | None => (None, Details.empty)
    end in
  let '(content_type, details) :=
    match content_type with
    | None => (HTML, Details.of_html "<p>MISSING CONTENT</p>")
    | Some content_type => (content_type, details)
    end in
  if String.eqb content_type LINK
  then process_link details
  else Ok (content_type, details).

Definition _create_olx_nodes (content_type : string) (details : Details.t)
  : result (list Node) :=
  let nodes := [] in
  if String.eqb content_type HTML then
    let child := createElement "html" in
    html <- subscript "html" (Details.html details) ;;
    let html := _process_static_links html in
    let txt := createCDATASection html in
    child <- appendChild child txt ;;
    Ok (nodes ++ [child])%list
  else if String.eqb content_type VIDEO then
    let child := createElement "video" in
    youtube <- subscript "youtube" (Details.youtube details) ;;
    child <- setAttribute child "youtube" ("1.00:" ++ youtube) ;;
    child <- setAttribute child "youtube_id_1_0" youtube ;;
    Ok (nodes ++ [child])%list
  else if String.eqb content_type LTI then
    node <- _create_lti_node details ;;
    Ok (nodes ++ [node])%list
  else if String.eqb content_type QTI then
    Ok (nodes ++ create_qti_node details)%list
  else
    Raise (OlxExportException
             ("Content type " ++ Str.dquote ++ content_type ++ Str.dquote
              ++ " is not supported.")).

(** The children of one outline node: the nodes of its content at leaf
    depth, one element named by the first tag otherwise. *)
Definition new_children (element_data : OutlineNode) (tags : list string)
  : result (list Node) :=
  match tags with
  | [] =>
      c <- _get_content element_data ;;
      _create_olx_nodes (fst c) (snd c)
  | tag :: _ => Ok [createElement tag]
  end.

(** The body of the loop of [_add_olx_nodes] for one [element_data]: the
    element after it, and the exception that stopped it, if any.  A child
    is appended before the recursion fills it, and the element holds the
    child itself: what the recursion does to the child, up to an exception
    included, shows in the element. *)
Fixpoint add_element_data (element : Node) (element_data : OutlineNode)
  (tags : list string) {struct element_data} : Node * option exn :=
  match new_children element_data tags with
  | Raise e => (element, Some e)
  | Ok nodes =>
      (fix each_child (nodes : list Node) (element : Node) : Node * option exn :=
         match nodes with
         | [] => (element, None)
         | child :: nodes' =>
             match
               match title element_data with
               | Some t => setAttribute child "display_name" t
               | None => Ok child
               end
             with
             | Raise e => (element, Some e)
             | Ok child =>
                 match appendChild element child with
                 | Raise e => (element, Some e)
                 | Ok _ =>
                     let '(child, raised) :=
                       match children element_data with
                       | Some course_data =>
                           (fix each_data (course_data : list OutlineNode) (element : Node)
                              : Node * option exn :=
                              match course_data with
                              | [] => (element, None)
                              | element_data :: course_data' =>
                                  match add_element_data element element_data (tl tags) with
                                  | (element, Some e) => (element, Some e)
                                  | (element, None) => each_data course_data' element
                                  end
                              end) course_data child
                       | None => (child, None)
                       end in
                     match appendChild element child, raised with
                     | Ok element, None => each_child nodes' element
                     | Ok element, Some e => (element, Some e)
                     | Raise e, _ => (element, Some e)
                     end
                 end
             end
         end) nodes element
  end.

(** [_add_olx_nodes(element, course_data, tags)] *)
Fixpoint _add_olx_nodes (element : Node) (course_data : list OutlineNode)
  (tags : list string) : Node * option exn :=
  match course_data with
  | [] => (element, None)
  | element_data :: course_data' =>
      match add_element_data element element_data tags with
      | (element, Some e) => (element, Some e)
      | (element, None) => _add_olx_nodes element course_data' tags
      end
  end.

(** The loop [for child in children] of [_add_olx_nodes], with its
    recursive call. *)
Fixpoint add_children (element : Node) (element_data : OutlineNode)
  (tags : list string) (nodes : list Node) : Node * option exn :=
  match nodes with
  | [] => (element, None)
  | child :: nodes' =>
      match
        match title element_data with
        | Some t => setAttribute child "display_name" t
        | None => Ok child
        end
      with
      | Raise e => (element, Some e)
      | Ok child =>
          match appendChild element child with
          | Raise e => (element, Some e)
          | Ok _ =>
              let '(child, raised) :=
                match children element_data with
                | Some course_data => _add_olx_nodes child course_data (tl tags)
                | None => (child, None)
                end in
              match appendChild element child, raised with
              | Ok element, None => add_children element element_data tags nodes'
              | Ok element, Some e => (element, Some e)
              | Raise e, _ => (element, Some e)
              end
          end
      end
  end.

(** [xml()], up to the serialization of the document: the document built,
    and the exception that interrupted the build, if any. *)
Definition xml : Document * option exn :=
  let comment := createComment " Generated by cc2olx " in
  let xcourse :=
    Element "course"
      (set (set (set [] "org" (get_course_org cartridge))
                "course" "Some_cc_Course")
           "name" (get_title cartridge))
      [] in
  let tags := ["chapter"; "sequential"; "vertical"] in
  let '(xcourse, raised) := _add_olx_nodes xcourse (normalized_children cartridge) tags in
  ({| documentNodes := [comment; xcourse] |}, raised).

End OlxExport.


(** ** The mapping as a construction of new nodes

    The Tree Mapper as the specification words it: every outline node gives
    its nodes, in order, each with the display name and, under it, the nodes
    of the children of the outline node; nothing is mutated. *)

Module Spec.

Section MapM.
Variables A B : Type.
Variable f : A -> result B.

(** The results of [f] on the elements of a list, in the order of the
    list; the first exception stops it. *)
Fixpoint mapM (l : list A) : result (list B) :=
  match l with
  | [] => Ok []
  | a :: l' =>
      b <- f a ;;
      bs <- mapM l' ;;
      Ok (b :: bs)
  end.
End MapM.

(** The title of the outline node as the display name of a node. *)
Definition with_title (element_data : OutlineNode) (node : Node) : result Node :=
  match title element_data with
  | Some t => setAttribute node "display_name" t
  | None => Ok node
  end.

(** The nodes appended to a node, one after the other. *)
Fixpoint attach (node : Node) (nodes : list Node) : result Node :=
  match nodes with
  | [] => Ok node
  | n :: nodes' =>
      node <- appendChild node n ;;
      attach node nodes'
  end.

(** A node with the display name and, appended to it, the nodes below. *)
Definition decorate (element_data : OutlineNode) (below : result (list Node))
  (node : Node) : result Node :=
  node <- with_title element_data node ;;
  below <- below ;;
  attach node below.

Section Map.
Variable cartridge : Cartridge.
Variable create_qti_node : Details.t -> list Node.

(** The nodes of one outline node under the remaining tags. *)
Fixpoint map_node (element_data : OutlineNode) (tags : list string)
  {struct element_data} : result (list Node) :=
  built <- new_children cartridge create_qti_node element_data tags ;;
  mapM (decorate element_data
          match children element_data with
          | Some course_data =>
              per_item <- mapM (fun child => map_node child (tl tags)) course_data ;;
              Ok (concat per_item)
          | None => Ok []
          end)
       built.

(** The nodes of a sequence of outline nodes: those of each, in the
    order of the sequence. *)
Definition map_all (course_data : list OutlineNode) (tags : list string)
  : result (list Node) :=
  per_item <- mapM (fun child => map_node child tags) course_data ;;
  Ok (concat per_item).

(** A run of the mapper that raises nothing does to the element what the
    specification says: it appends the nodes of [map_node]. *)
Definition refines_node (element_data : OutlineNode) : Prop :=
forall tags element element',
add_element_data cartridge create_qti_node element element_data tags
= (element', None) ->
exists nodes,
map_node element_data tags = Ok nodes /\
attach element nodes = Ok element'.

Definition refines_all (course_data : list OutlineNode) : Prop :=
forall tags element element',
_add_olx_nodes cartridge create_qti_node element course_data tags
= (element', None) ->
exists nodes,
map_all course_data tags = Ok nodes /\
attach element nodes = Ok element'.
End Map.

(** The attributes of a container: the display name when the outline node
    has a title, nothing otherwise. *)
Definition display_name (element_data : OutlineNode) : list (string * string) :=
  match title element_data with
  | Some t => [("display_name", t)]
  | None => []
  end.

(** [element_data["children"]], an empty sequence when absent. *)
Definition children_of (element_data : OutlineNode) : list OutlineNode :=
  match children element_data with
  | Some course_data => course_data
  | None => []
  end.

(** One container per outline node at every depth that has a tag left:
    the nodes are, in order, one element per outline node, named by the
    first tag, with the display name of the outline node as only
    attribute when it has a title; below the last tag come the
    contents. *)
Fixpoint containers (tags : list string) (course_data : list OutlineNode)
  (nodes : list Node) : Prop :=
  match tags with
  | [] => True
  | tag :: tags' =>
      Forall2
        (fun element_data node =>
           exists below,
             node = Element tag (display_name element_data) below /\
             attribute node "display_name" = title element_data /\
             containers tags' (children_of element_data) below)
        course_data nodes
  end.

End Spec.

(** ** Inputs of the examples *)

Module Examples.

(** [{"href": href}] and [{"href": href, "text": text}] *)
Definition link (href : string) (text : option string) : Details.t :=
  Details.Build None (Some href) text None None None None None None None.

(** The details of an LTI tool:
    [{height: "400", width: "600", title: "T", description: "D",
      launch_url: "U", custom_parameters: {"a": "1", "b": "2"}}] *)
Definition lti_details : Details.t :=
  Details.Build None None None None (Some "T") (Some "D") (Some "U")
    (Some "400") (Some "600") (Some [("a", "1"); ("b", "2")]).

(** ['["a=1", "b=2"]'] *)
Definition lti_custom_parameters : string :=
  "[" ++ Str.dquote ++ "a=1" ++ Str.dquote ++ ", " ++ Str.dquote ++ "b=2" ++ Str.dquote ++ "]".

(** A cartridge whose every resource has the content type [pdf]. *)
Definition pdf_cartridge : Cartridge :=
  {| get_course_org := "org";
     get_title := "title";
     normalized_children := [];
     get_resource_content := fun _ => (Some "pdf", Details.empty) |}.

(** A cartridge that resolves no resource. *)
Definition empty_cartridge : Cartridge :=
  {| get_course_org := "org";
     get_title := "title";
     normalized_children := [];
     get_resource_content := fun _ => (None, Details.empty) |}.

(** A course of one chapter, one sequential and one vertical, each with a
    title, around one page of HTML; the second chapter has neither title
    nor children. *)
Definition course_cartridge : Cartridge :=
  {| get_course_org := "org";
     get_title := "Course";
     normalized_children :=
       [Outline (Some "Week 1") None
          (Some [Outline (Some "Lesson") None
                   (Some [Outline (Some "Unit") None
                            (Some [Outline (Some "Page") (Some "r1") None;
                                   Outline None None None])])]);
        Outline None None None];
     get_resource_content := fun _ => (Some "html", Details.of_html "<p>Hello</p>") |}.

(** No assessment yields any node. *)
Definition no_qti (_ : Details.t) : list Node := [].




End Examples.

(** ** Notions used by the further properties *)

(** What a call may do to the element it is given: an element keeps its
    tag, its attributes and the children it had, in their order, before
    new ones; a node that is not an element is left as it is. *)
Definition extends (element element' : Node) : Prop :=
  match element with
  | Element tag attributes below =>
      exists new, element' = Element tag attributes (below ++ new)%list
  | _ => element' = element
  end.

(** The outline below the node stops before the tags run out: no node of
    it is at leaf depth. *)
Fixpoint above_leaf (tags : list string) (element_data : OutlineNode) : bool :=
  match tags with
  | [] => false
  | _ :: tags' => forallb (above_leaf tags') (Spec.children_of element_data)
  end.

(** Every resource of the cartridge is unresolved or a page of HTML. *)
Definition html_only (cartridge : Cartridge) : Prop :=
  forall idref,
    match get_resource_content cartridge idref with
    | (None, _) => True
    | (Some content_type, details) =>
        content_type = "html" /\ Details.html details <> None
    end.

(** The keys [_create_lti_node] reads, in the order it reads them, with
    whether the details have them. *)
Definition lti_keys (details : Details.t) : list (string * bool) :=
  [("custom_parameters",
    match Details.custom_parameters details with Some _ => true | None => false end);
   ("description",
    match Details.description details with Some _ => true | None => false end);
   ("title", match Details.title details with Some _ => true | None => false end);
   ("height", match Details.height details with Some _ => true | None => false end);
   ("width", match Details.width details with Some _ => true | None => false end);
   ("launch_url",
    match Details.launch_url details with Some _ => true | None => false end)].

(** The first key that is absent. *)
Fixpoint first_absent (keys : list (string * bool)) : option string :=
  match keys with
  | [] => None
  | (key, true) :: keys' => first_absent keys'
  | (key, false) :: _ => Some key
  end.



(** What an item says of the text when it matched: what it consumed is a
    run of its class at the head of the text, and the rest of the pattern
    matched what follows. *)
Definition took (R : Type) (cls : ascii -> bool) (k : string -> option R)
  (s w : string) (r : R) : Prop :=
  Re.all_in cls w = true /\ exists s', s = w ++ s' /\ k s' = Some r.

Module MoreExamples.

(** A cartridge of one LTI tool. *)
Definition lti_cartridge : Cartridge :=
  {| get_course_org := "org";
     get_title := "Course";
     normalized_children := [];
     get_resource_content := fun _ => (Some "lti", Examples.lti_details) |}.

(** A cartridge whose every resource is a link to a video. *)
Definition video_cartridge : Cartridge :=
  {| get_course_org := "org";
     get_title := "Course";
     normalized_children := [];
     get_resource_content :=
       fun _ => (Some "link",
                 Examples.link "https://www.youtube.com/watch?v=gQ-cZRmHfs4&t=1" None) |}.

(** A cartridge whose every resource is a video without its id. *)
Definition keyless_video_cartridge : Cartridge :=
  {| get_course_org := "org";
     get_title := "Course";
     normalized_children := [];
     get_resource_content := fun _ => (Some "video", Details.empty) |}.

(** Two chapters, the first with a sequential: no node at leaf depth. *)
Definition chapters : list OutlineNode :=
  [Outline (Some "Week 1") None (Some [Outline (Some "Lesson") None None]);
   Outline None None None].

End MoreExamples.
(** * Properties *)

Unset Implicit Arguments.

(** ** Strings and patterns *)

Lemma contains_cons_false sub c s :
  Str.contains sub (String c s) = false ->
  prefix sub (String c s) = false /\ Str.contains sub s = false.
Proof.
  cbn [Str.contains]. intros H. apply orb_false_iff in H. exact H.
Qed.

(** A text with no occurrence of [old] is left as it is. *)
Lemma replace_absent old new s :
  Str.contains old s = false -> Str.replace old new s = s.
Proof.
  destruct old as [|a old].
  - destruct s; cbn; discriminate.
  - unfold Str.replace. induction s as [|c s IH]; intros H; [reflexivity|].
    apply contains_cons_false in H. destruct H as [Hp Hc].
    cbn [Str.replace_from]. rewrite Hp. f_equal. auto.
Qed.



Lemma prefix_append old s :
  prefix old s = true -> exists rest, s = old ++ rest.
Proof.
  revert s. induction old as [|a old IH]; intros s H.
  - exists s. reflexivity.
  - destruct s as [|b s]; cbn in H; [discriminate|].
    destruct (ascii_dec a b) as [<-|]; [|discriminate].
    destruct (IH s H) as [rest ->]. exists rest. reflexivity.
Qed.



Section ItemLemmas.
Variable R : Type.
Variable cls : ascii -> bool.
Variable k : string -> option R.



End ItemLemmas.





(** ** The link classifier *)







(** C10 (as amended): the match is an unanchored search in which the one
    dot of [youtube.com] stands for any character but a newline: an href
    whose host is not youtube.com is classified as a video as soon as
    [youtube], one character and [com/watch?v=ID] follow one another
    somewhere in it. *)
Theorem process_link_not_youtube_host :
  process_link (Examples.link "http://youtubeXcom/watch?v=abc" None)
  = Ok ("video", Details.of_youtube "abc") /\
  process_link (Examples.link "https://evil-youtube.com/watch?v=abc" None)
  = Ok ("video", Details.of_youtube "abc") /\
  process_link (Examples.link "https://attacker.example/?next=youtube.com/watch?v=abc" None)
  = Ok ("video", Details.of_youtube "abc").
Proof.
  repeat split; reflexivity.
Qed.

(** C10 (as stated) fails on its second example: after [youtube.com] the
    pattern wants [/watch?v=], not [.attacker.example/watch?v=]. *)
Lemma process_link_attacker_example :
  process_link (Examples.link "https://evil-youtube.com.attacker.example/watch?v=abc" None)
  = Ok ("html",
        Details.of_html "<a href='https://evil-youtube.com.attacker.example/watch?v=abc'></a>").
Proof.
  reflexivity.
Qed.

(** ** The LTI builder *)

(** C7: the LTI details of the example give one [lti_consumer] element with
    the heights, widths, names and parameters of the details. *)
Theorem create_lti_node_example :
  _create_lti_node Examples.lti_details =
  Ok (Element "lti_consumer"
        [("custom_parameters", Examples.lti_custom_parameters);
         ("description", "D");
         ("display_name", "T");
         ("inline_height", "400");
         ("inline_width", "600");
         ("launch_url", "U");
         ("modal_height", "400");
         ("modal_width", "600");
         ("xblock-family", "xblock.v1")]
        []) /\
  forall create_qti_node,
    exists node,
      _create_olx_nodes create_qti_node "lti" Examples.lti_details = Ok [node] /\
      attribute node "inline_height" = Some "400" /\
      attribute node "modal_height" = Some "400" /\
      attribute node "inline_width" = Some "600" /\
      attribute node "modal_width" = Some "600" /\
      attribute node "display_name" = Some "T" /\
      attribute node "description" = Some "D" /\
      attribute node "launch_url" = Some "U" /\
      attribute node "custom_parameters" = Some Examples.lti_custom_parameters /\
      attribute node "xblock-family" = Some "xblock.v1".
Proof.
  split; [reflexivity|]. intros q. eexists. split; [reflexivity|].
  repeat split; reflexivity.
Qed.

(** ** The static-link rewriter *)

(** Values without the placeholder token trigger no replacement. *)
Lemma rewrite_srcs_no_token srcs html :
  existsb (Str.contains "IMS-CC-FILEBASE") srcs = false ->
  fold_left rewrite_src srcs html = html.
Proof.
  induction srcs as [|src srcs IH]; intros H; [reflexivity|].
  cbn [existsb] in H. apply orb_false_iff in H. destruct H as [Hsrc Hrest].
  cbn [fold_left]. unfold rewrite_src at 2. rewrite Hsrc. auto.
Qed.

(** A text none of whose [src] values holds the token is returned as it
    is. *)
Lemma static_links_no_token html :
  existsb (Str.contains "IMS-CC-FILEBASE") (Re.findall src_pattern html) = false ->
  _process_static_links html = html.
Proof.
  intros H. unfold _process_static_links. now apply rewrite_srcs_no_token.
Qed.








(** ** The content builders *)

(** C2: an outline node without [identifierref], or whose reference the
    cartridge resolves to no content type, has the content type [html] and
    gives exactly one [html] element whose CDATA section holds
    [<p>MISSING CONTENT</p>]; nothing is raised. *)
Theorem missing_content cartridge create_qti_node element_data :
  identifierref element_data = None \/
  (exists idref, identifierref element_data = Some idref /\
                 fst (get_resource_content cartridge idref) = None) ->
  _get_content cartridge element_data
  = Ok ("html", Details.of_html "<p>MISSING CONTENT</p>") /\
  _create_olx_nodes create_qti_node "html" (Details.of_html "<p>MISSING CONTENT</p>")
  = Ok [Element "html" [] [CDATASection "<p>MISSING CONTENT</p>"]] /\
  new_children cartridge create_qti_node element_data []
  = Ok [Element "html" [] [CDATASection "<p>MISSING CONTENT</p>"]].
Proof.
  intros H.
  assert (Hc : _get_content cartridge element_data
               = Ok ("html", Details.of_html "<p>MISSING CONTENT</p>")).
  { unfold _get_content. destruct H as [H | (idref & H & Hnone)]; rewrite H.
    - reflexivity.
    - destruct (get_resource_content cartridge idref) as [ct d].
      cbn in Hnone. subst ct. reflexivity. }
  split; [exact Hc|]. split; [reflexivity|].
  unfold new_children. rewrite Hc. reflexivity.
Qed.

Lemma missing_content_witness :
  new_children Examples.empty_cartridge Examples.no_qti
    (Outline (Some "Introduction") None None) []
  = Ok [Element "html" [] [CDATASection "<p>MISSING CONTENT</p>"]] /\
  new_children Examples.empty_cartridge Examples.no_qti
    (Outline None (Some "resource_1") None) []
  = Ok [Element "html" [] [CDATASection "<p>MISSING CONTENT</p>"]].
Proof.
  split.
  - apply (missing_content Examples.empty_cartridge Examples.no_qti
             (Outline (Some "Introduction") None None)).
    left. reflexivity.
  - apply (missing_content Examples.empty_cartridge Examples.no_qti
             (Outline None (Some "resource_1") None)).
    right. exists "resource_1". split; reflexivity.
Defined.

(** ** The tree mapper *)

(** Induction on outline trees: a property holds of every node as soon as
    it holds of a node whose children have it. *)
Lemma OutlineNode_tree_ind (P : OutlineNode -> Prop)
  (step : forall t i c,
      match c with Some l => Forall P l | None => True end ->
      P (Outline t i c)) : forall n, P n.
Proof.
  exact
    (fix rec (n : OutlineNode) : P n :=
       match n with
       | Outline t i c =>
           step t i c
             match c return match c with Some l => Forall P l | None => True end with
             | Some l =>
                 (fix all (l : list OutlineNode) : Forall P l :=
                    match l with
                    | [] => Forall_nil P
                    | x :: l' => Forall_cons x (rec x) (all l')
                    end) l
             | None => I
             end
       end).
Qed.

Section TreeMapper.

Variable cartridge : Cartridge.
Variable create_qti_node : Details.t -> list Node.

(** The body of the loop of [_add_olx_nodes], with the recursion written
    as the call of [_add_olx_nodes] it is in the source. *)
Lemma add_element_data_eq element element_data tags :
  add_element_data cartridge create_qti_node element element_data tags =
  match new_children cartridge create_qti_node element_data tags with
  | Raise e => (element, Some e)
  | Ok nodes => add_children cartridge create_qti_node element element_data tags nodes
  end.
Proof.
  destruct element_data as [t i c]. cbn [add_element_data].
  destruct (new_children cartridge create_qti_node (Outline t i c) tags)
    as [nodes|e]; [|reflexivity].
  revert element. induction nodes as [|child nodes IH]; intros element; [reflexivity|].
  cbn [add_children title children].
  destruct (match t with Some t0 => setAttribute child "display_name" t0 | None => Ok child end)
    as [child1|e]; [|reflexivity].
  destruct (appendChild element child1) as [el1|e]; [|reflexivity].
  assert (Hrec : forall course_data node,
             (fix each_data (course_data : list OutlineNode) (element : Node)
                {struct course_data} : Node * option exn :=
                match course_data with
                | [] => (element, None)
                | element_data :: course_data' =>
                    match add_element_data cartridge create_qti_node
                            element element_data (tl tags) with
                    | (element0, Some e) => (element0, Some e)
                    | (element0, None) => each_data course_data' element0
                    end
                end) course_data node
             = _add_olx_nodes cartridge create_qti_node node course_data (tl tags)).
  { induction course_data as [|x l IHl]; intros node; [reflexivity|].
    cbn [_add_olx_nodes].
    destruct (add_element_data cartridge create_qti_node node x (tl tags))
      as [n [e|]]; [reflexivity|].
    apply IHl. }
  destruct c as [course_data|].
  - rewrite Hrec.
    destruct (_add_olx_nodes cartridge create_qti_node child1 course_data (tl tags))
      as [child2 raised].
    destruct (appendChild element child2) as [el2|e]; [|reflexivity].
    destruct raised; [reflexivity|]. apply IH.
  - destruct (appendChild element child1) as [el2|e]; [|reflexivity]. apply IH.
Qed.

(** Appending to what was appended. *)
Lemma attach_app node nodes1 nodes2 :
  Spec.attach node (nodes1 ++ nodes2)%list =
  (node' <- Spec.attach node nodes1 ;; Spec.attach node' nodes2).
Proof.
  revert node. induction nodes1 as [|n nodes1 IH]; intros node; [reflexivity|].
  cbn [app Spec.attach]. destruct (appendChild node n) as [node1|e]; cbn [bind]; auto.
Qed.

(** The nodes attached to an element are its last children, in order. *)
Lemma attach_element tag attributes below nodes :
  Spec.attach (Element tag attributes below) nodes =
  Ok (Element tag attributes (below ++ nodes)%list).
Proof.
  revert below. induction nodes as [|n nodes IH]; intros below; cbn [Spec.attach].
  - now rewrite app_nil_r.
  - cbn [appendChild bind]. rewrite IH, <- app_assoc. reflexivity.
Qed.

Lemma attach_childNodes node nodes node' :
  Spec.attach node nodes = Ok node' ->
  childNodes node' = (childNodes node ++ nodes)%list.
Proof.
  destruct nodes as [|n nodes].
  - cbn. intros [= <-]. now rewrite app_nil_r.
  - destruct node as [tag attributes below| |]; cbn [Spec.attach appendChild bind];
      try discriminate.
    rewrite attach_element. intros [= <-]. cbn [childNodes].
    now rewrite <- app_assoc.
Qed.

Lemma refines_all_of_nodes course_data :
  Forall (Spec.refines_node cartridge create_qti_node) course_data ->
Spec.refines_all cartridge create_qti_node course_data.
Proof.
  induction 1 as [|x l Hx Hl IH]; intros tags element element' Hrun.
  - cbn in Hrun. injection Hrun as <-. exists []. split; reflexivity.
  - cbn [_add_olx_nodes] in Hrun.
    destruct (add_element_data cartridge create_qti_node element x tags)
      as [element1 [e|]] eqn:Hone; [discriminate|].
    destruct (Hx _ _ _ Hone) as (nodes1 & Hspec1 & Hatt1).
    destruct (IH _ _ _ Hrun) as (nodes2 & Hspec2 & Hatt2).
    exists (nodes1 ++ nodes2)%list. split.
    + unfold Spec.map_all in *. cbn [Spec.mapM]. rewrite Hspec1. cbn [bind].
      destruct (Spec.mapM (fun child => Spec.map_node cartridge create_qti_node child tags) l)
        as [per|e]; [|discriminate].
      cbn [bind] in *. injection Hspec2 as <-. reflexivity.
    + rewrite attach_app, Hatt1. exact Hatt2.
Qed.

Lemma map_node_eq element_data tags :
  Spec.map_node cartridge create_qti_node element_data tags =
  (built <- new_children cartridge create_qti_node element_data tags ;;
   Spec.mapM
     (Spec.decorate element_data
        match children element_data with
        | Some course_data => Spec.map_all cartridge create_qti_node course_data (tl tags)
        | None => Ok []
        end)
     built).
Proof.
  destruct element_data as [t i [course_data|]]; reflexivity.
Qed.

Lemma refines_node_all element_data :
Spec.refines_node cartridge create_qti_node element_data.
Proof.
  induction element_data as [t i c IH] using OutlineNode_tree_ind.
  intros tags element element' Hrun.
  rewrite add_element_data_eq in Hrun. rewrite map_node_eq.
  destruct (new_children cartridge create_qti_node (Outline t i c) tags)
    as [built|e]; [|discriminate].
  cbn [bind]. revert element Hrun.
  induction built as [|child built IHb]; intros element Hrun.
  { cbn in Hrun. injection Hrun as <-. exists []. split; reflexivity. }
  cbn [add_children] in Hrun. cbn [Spec.mapM].
  unfold Spec.decorate at 1. unfold Spec.with_title.
  destruct (match title (Outline t i c) with
            | Some t0 => setAttribute child "display_name" t0
            | None => Ok child
            end) as [child1|e]; [|discriminate].
  destruct (appendChild element child1) as [el1|e] eqn:Happ1; [|discriminate].
  cbn [bind]. cbn [children] in *.
  destruct c as [course_data|].
  - apply refines_all_of_nodes in IH.
    destruct (_add_olx_nodes cartridge create_qti_node child1 course_data (tl tags))
      as [child2 raised] eqn:Hrec.
    destruct (appendChild element child2) as [el2|e] eqn:Happ2; [|discriminate].
    destruct raised as [e|]; [discriminate|].
    destruct (IH _ _ _ Hrec) as (below & Hbelow & Hatt).
    destruct (IHb _ Hrun) as (nodes & Hnodes & Hattn).
    rewrite Hnodes, Hbelow. cbn [bind]. rewrite Hatt. cbn [bind].
    exists (child2 :: nodes). split; [reflexivity|].
    cbn [Spec.attach]. rewrite Happ2. exact Hattn.
  - rewrite Happ1 in Hrun.
    destruct (IHb _ Hrun) as (nodes & Hnodes & Hattn).
    cbn [bind Spec.attach]. rewrite Hnodes. cbn [bind].
    exists (child1 :: nodes). split; [reflexivity|].
    cbn [Spec.attach]. rewrite Happ1. exact Hattn.
Qed.

Lemma refines_all_all course_data :
Spec.refines_all cartridge create_qti_node course_data.
Proof.
  apply refines_all_of_nodes. apply Forall_forall. intros x _. apply refines_node_all.
Qed.

End TreeMapper.

(** [mapM] pairs the elements with their results, in order. *)
Lemma mapM_Forall2 (A B : Type) (f : A -> result B) l out :
  Spec.mapM f l = Ok out -> Forall2 (fun a b => f a = Ok b) l out.
Proof.
  revert out. induction l as [|a l IH]; intros out; cbn [Spec.mapM].
  - intros [= <-]. constructor.
  - destruct (f a) as [b|e] eqn:Hf; [|discriminate]. cbn [bind].
    destruct (Spec.mapM f l) as [bs|e]; [|discriminate]. cbn [bind].
    intros [= <-]. constructor; auto.
Qed.

(** At a depth that has a tag left, the nodes of an outline node are one
    element. *)
Lemma map_node_container cartridge create_qti_node element_data tag tags nodes :
  Spec.map_node cartridge create_qti_node element_data (tag :: tags) = Ok nodes ->
  exists below,
    Spec.map_all cartridge create_qti_node (Spec.children_of element_data) tags = Ok below /\
    nodes = [Element tag (Spec.display_name element_data) below].
Proof.
  rewrite map_node_eq. cbn [new_children bind Spec.mapM tl].
  unfold Spec.decorate, Spec.with_title, Spec.display_name, Spec.children_of, createElement.
  destruct (title element_data) as [t|]; cbn [setAttribute set bind];
    destruct (children element_data) as [course_data|];
    try (destruct (Spec.map_all cartridge create_qti_node course_data tags)
          as [below|e]; [|discriminate]);
    cbn [bind]; rewrite attach_element; cbn [bind app]; intros [= <-]; eauto;
    exists []; split; reflexivity.
Qed.

Lemma containers_of_map_all cartridge create_qti_node tags :
  forall course_data nodes,
    Spec.map_all cartridge create_qti_node course_data tags = Ok nodes ->
    Spec.containers tags course_data nodes.
Proof.
  induction tags as [|tag tags IH]; intros course_data nodes Hmap; [exact I|].
  cbn [Spec.containers]. unfold Spec.map_all in Hmap.
  destruct (Spec.mapM
              (fun child => Spec.map_node cartridge create_qti_node child (tag :: tags))
              course_data) as [per|e] eqn:Hper; [|discriminate].
  cbn [bind] in Hmap. injection Hmap as <-.
  apply mapM_Forall2 in Hper. clear -Hper IH.
  induction Hper as [|element_data ns course_data per Hnode _ IHper]; [constructor|].
  apply map_node_container in Hnode. destruct Hnode as (below & Hbelow & ->).
  cbn [concat app]. constructor; [|exact IHper].
  exists below. split; [reflexivity|]. split; [|auto].
  unfold Spec.display_name. cbn [attribute].
  destruct (title element_data); reflexivity.
Qed.

(** C1: in the document of an outline mapped from the root with the tags
    [chapter], [sequential], [vertical], every outline node at a depth that
    has a tag left has exactly one element, in the place of the node, named
    by the first tag left at that depth; the element has the attribute
    [display_name], with the title as value, exactly when the outline node
    has a title.  (The outline may have any depth: below the third level
    come the contents.) *)
Theorem one_container_per_outline_node cartridge create_qti_node doc :
  xml cartridge create_qti_node = (doc, None) ->
  exists chapters,
    documentNodes doc =
      [Comment " Generated by cc2olx ";
       Element "course"
         [("org", get_course_org cartridge);
          ("course", "Some_cc_Course");
          ("name", get_title cartridge)]
         chapters] /\
    Spec.containers ["chapter"; "sequential"; "vertical"]
      (normalized_children cartridge) chapters.
Proof.
  unfold xml.
  destruct (_add_olx_nodes cartridge create_qti_node _ _ _)
    as [xcourse raised] eqn:Hrun.
  intros [= <- ->].
  destruct (refines_all_all _ _ _ _ _ _ Hrun) as (nodes & Hspec & Hatt).
  cbn [set String.eqb Ascii.eqb Bool.eqb] in Hatt.
  rewrite attach_element in Hatt. injection Hatt as <-.
  exists nodes. split; [reflexivity|].
  now apply containers_of_map_all with (1 := Hspec).
Qed.

(** The document of a course of three nested levels around one page. *)
Example xml_course :
  xml Examples.course_cartridge Examples.no_qti =
  ({| documentNodes :=
        [Comment " Generated by cc2olx ";
         Element "course"
           [("org", "org"); ("course", "Some_cc_Course"); ("name", "Course")]
           [Element "chapter" [("display_name", "Week 1")]
              [Element "sequential" [("display_name", "Lesson")]
                 [Element "vertical" [("display_name", "Unit")]
                    [Element "html" [("display_name", "Page")]
                       [CDATASection "<p>Hello</p>"];
                     Element "html" [] [CDATASection "<p>MISSING CONTENT</p>"]]]];
            Element "chapter" [] []]] |},
   None).
Proof.
  reflexivity.
Qed.

Lemma one_container_per_outline_node_witness :
  exists chapters,
    documentNodes (fst (xml Examples.course_cartridge Examples.no_qti)) =
      [Comment " Generated by cc2olx ";
       Element "course"
         [("org", "org"); ("course", "Some_cc_Course"); ("name", "Course")]
         chapters] /\
    Spec.containers ["chapter"; "sequential"; "vertical"]
      (normalized_children Examples.course_cartridge) chapters.
Proof.
  apply (one_container_per_outline_node Examples.course_cartridge Examples.no_qti).
  reflexivity.
Defined.

(** C9: whatever element [_add_olx_nodes] is called on, at whatever depth,
    a call that raises nothing appends to the children of the element the
    nodes of the outline nodes, outline node after outline node in the
    order of the sequence; the nodes of an outline node are the nodes of
    its builder, in the order the builder returned them, each with its
    display name and, after the children it had, the nodes of the children
    of the outline node, mapped in the same way. *)
Theorem children_in_input_order cartridge create_qti_node element course_data tags element' :
  _add_olx_nodes cartridge create_qti_node element course_data tags = (element', None) ->
  exists per_item,
    childNodes element' = (childNodes element ++ concat per_item)%list /\
    Forall2
      (fun element_data nodes =>
         Spec.map_node cartridge create_qti_node element_data tags = Ok nodes /\
         exists built,
           new_children cartridge create_qti_node element_data tags = Ok built /\
           Forall2
             (fun child node =>
                exists titled below,
                  Spec.with_title element_data child = Ok titled /\
                  Spec.map_all cartridge create_qti_node
                    (Spec.children_of element_data) (tl tags) = Ok below /\
                  Spec.attach titled below = Ok node /\
                  childNodes node = (childNodes child ++ below)%list)
             built nodes)
      course_data per_item.
Proof.
  intros Hrun.
  destruct (refines_all_all _ _ _ _ _ _ Hrun) as (nodes & Hspec & Hatt).
  unfold Spec.map_all in Hspec.
  destruct (Spec.mapM (fun child => Spec.map_node cartridge create_qti_node child tags)
              course_data) as [per|e] eqn:Hper; [|discriminate].
  cbn [bind] in Hspec. injection Hspec as <-.
  exists per. split; [now apply attach_childNodes|].
  apply mapM_Forall2 in Hper. clear Hrun Hatt.
  induction Hper as [|element_data ns l per Hnode _ IH]; [constructor|].
  constructor; [|exact IH].
  split; [exact Hnode|].
  rewrite map_node_eq in Hnode.
  destruct (new_children cartridge create_qti_node element_data tags)
    as [built|e]; [|discriminate].
  cbn [bind] in Hnode. exists built. split; [reflexivity|].
  apply mapM_Forall2 in Hnode.
  induction Hnode as [|child node built ns' Hdec _ IHd]; [constructor|].
  constructor; [|exact IHd].
  unfold Spec.decorate in Hdec.
  destruct (Spec.with_title element_data child) as [titled|e] eqn:Htitle; [|discriminate].
  cbn [bind] in Hdec.
  assert (Hbelow : exists below,
             Spec.map_all cartridge create_qti_node
               (Spec.children_of element_data) (tl tags) = Ok below /\
             Spec.attach titled below = Ok node).
  { unfold Spec.children_of. destruct (children element_data) as [cd|].
    - destruct (Spec.map_all cartridge create_qti_node cd (tl tags)) as [below|e];
        [|discriminate].
      exists below. split; [reflexivity|exact Hdec].
    - exists []. split; [reflexivity|exact Hdec]. }
  destruct Hbelow as (below & Hbelow & Hattach).
  exists titled, below. repeat split; auto.
  rewrite (attach_childNodes _ _ _ Hattach). f_equal.
  unfold Spec.with_title in Htitle. destruct (title element_data) as [t|].
  - destruct child; cbn in Htitle; try discriminate. now injection Htitle as <-.
  - now injection Htitle as <-.
Qed.

Lemma children_in_input_order_witness :
  exists per_item,
    childNodes (fst (_add_olx_nodes Examples.course_cartridge Examples.no_qti
                       (Element "vertical" [] [])
                       [Outline (Some "Page") (Some "r1") None; Outline None None None]
                       []))
    = ([] ++ concat per_item)%list /\
    Forall2
      (fun element_data nodes =>
         Spec.map_node Examples.course_cartridge Examples.no_qti element_data [] = Ok nodes)
      [Outline (Some "Page") (Some "r1") None; Outline None None None]
      per_item.
Proof.
  destruct (children_in_input_order Examples.course_cartridge Examples.no_qti
              (Element "vertical" [] [])
              [Outline (Some "Page") (Some "r1") None; Outline None None None]
              []
              (fst (_add_olx_nodes Examples.course_cartridge Examples.no_qti
                      (Element "vertical" [] [])
                      [Outline (Some "Page") (Some "r1") None; Outline None None None]
                      []))
              eq_refl) as (per_item & Hchildren & Hper).
  exists per_item. split; [exact Hchildren|].
  eapply Forall2_impl; [|exact Hper]. intros a b [H _]. exact H.
Defined.

(** C8: a content type other than [html], [video], [lti] and [qti] makes
    the builder raise [OlxExportException] with a message that names the
    type; the element the item was to go under is left as it was, and the
    exception ends the mapping. *)
Theorem unsupported_content_type create_qti_node content_type details :
  content_type <> "html" -> content_type <> "video" ->
  content_type <> "lti" -> content_type <> "qti" ->
  let raised :=
    OlxExportException
      ("Content type " ++ Str.dquote ++ content_type ++ Str.dquote ++ " is not supported.") in
  _create_olx_nodes create_qti_node content_type details = Raise raised /\
  forall cartridge element element_data course_data,
    _get_content cartridge element_data = Ok (content_type, details) ->
    _add_olx_nodes cartridge create_qti_node element (element_data :: course_data) []
    = (element, Some raised).
Proof.
  intros Hhtml Hvideo Hlti Hqti raised.
  assert (Hraise : _create_olx_nodes create_qti_node content_type details = Raise raised).
  { unfold _create_olx_nodes, HTML, VIDEO, LTI, QTI.
    apply String.eqb_neq in Hhtml, Hvideo, Hlti, Hqti.
    now rewrite Hhtml, Hvideo, Hlti, Hqti. }
  split; [exact Hraise|].
  intros cartridge element element_data course_data Hcontent.
  cbn [_add_olx_nodes]. rewrite add_element_data_eq.
  unfold new_children. rewrite Hcontent. cbn [bind fst snd]. rewrite Hraise.
  reflexivity.
Qed.

Lemma unsupported_content_type_witness :
  _create_olx_nodes Examples.no_qti "pdf" Details.empty
  = Raise (OlxExportException
             ("Content type " ++ Str.dquote ++ "pdf" ++ Str.dquote ++ " is not supported.")) /\
  _add_olx_nodes Examples.pdf_cartridge Examples.no_qti
    (Element "vertical" [] [Element "html" [] []])
    [Outline (Some "Paper") (Some "r1") None; Outline None None None] []
  = (Element "vertical" [] [Element "html" [] []],
     Some (OlxExportException
             ("Content type " ++ Str.dquote ++ "pdf" ++ Str.dquote ++ " is not supported."))).
Proof.
  assert (H : "pdf" <> "html" /\ "pdf" <> "video" /\ "pdf" <> "lti" /\ "pdf" <> "qti").
  { repeat split; discriminate. }
  destruct H as (H1 & H2 & H3 & H4).
  destruct (unsupported_content_type Examples.no_qti "pdf" Details.empty H1 H2 H3 H4)
    as [Hraise Htree].
  split; [exact Hraise|].
  apply (Htree Examples.pdf_cartridge). reflexivity.
Defined.

(** * Further properties of the exporter *)

(** ** What the tree mapper does to the element it is given *)

Lemma extends_refl element : extends element element.
Proof.
  destruct element; cbn; auto. exists []. now rewrite app_nil_r.
Qed.

Lemma extends_trans e1 e2 e3 : extends e1 e2 -> extends e2 e3 -> extends e1 e3.
Proof.
  destruct e1 as [t a c| |]; cbn.
  - intros [n1 ->] [n2 ->]. exists (n1 ++ n2)%list. now rewrite app_assoc.
  - intros ->. auto.
  - intros ->. auto.
Qed.

Lemma extends_appendChild element child element' :
  appendChild element child = Ok element' -> extends element element'.
Proof.
  destruct element; cbn; try discriminate. intros [= <-]. now exists [child].
Qed.

Section Keeps.

Variable cartridge : Cartridge.
Variable create_qti_node : Details.t -> list Node.

Lemma add_children_extends element_data tags nodes :
  forall element,
    extends element
      (fst (add_children cartridge create_qti_node element element_data tags nodes)).
Proof.
  induction nodes as [|child nodes IH]; intros element; cbn [add_children].
  - apply extends_refl.
  - destruct (match title element_data with
              | Some t => setAttribute child "display_name" t
              | None => Ok child
              end) as [child1|e]; [|apply extends_refl].
    destruct (appendChild element child1) as [el1|e] eqn:H1; [|apply extends_refl].
    destruct (match children element_data with
              | Some course_data =>
                  _add_olx_nodes cartridge create_qti_node child1 course_data (tl tags)
              | None => (child1, None)
              end) as [child2 raised].
    destruct (appendChild element child2) as [el2|e] eqn:H2; [|apply extends_refl].
    apply extends_appendChild in H2.
    destruct raised as [e|]; [exact H2|].
    eapply extends_trans; [exact H2|apply IH].
Qed.

Lemma add_element_data_extends element element_data tags :
  extends element
    (fst (add_element_data cartridge create_qti_node element element_data tags)).
Proof.
  rewrite add_element_data_eq.
  destruct (new_children cartridge create_qti_node element_data tags) as [nodes|e].
  - apply add_children_extends.
  - apply extends_refl.
Qed.

End Keeps.

Lemma add_olx_nodes_keeps cartridge create_qti_node element course_data tags :
  extends element
    (fst (_add_olx_nodes cartridge create_qti_node element course_data tags)).
Proof.
  revert element. induction course_data as [|x l IH]; intros element.
  - apply extends_refl.
  - cbn [_add_olx_nodes].
    pose proof (add_element_data_extends cartridge create_qti_node element x tags) as Hx.
    destruct (add_element_data cartridge create_qti_node element x tags)
      as [element1 [e|]]; [exact Hx|].
    eapply extends_trans; [exact Hx|apply IH].
Qed.

(** X1: whether it returns or raises, [_add_olx_nodes] leaves the element
    it is given with its tag, its attributes and the children it had, in
    their order; all it does is append children after them.  A node that
    is not an element is left as it is. *)
Theorem add_olx_nodes_extends cartridge create_qti_node element course_data tags
        element' raised :
  _add_olx_nodes cartridge create_qti_node element course_data tags = (element', raised) ->
  extends element element'.
Proof.
  intros H.
  pose proof (add_olx_nodes_keeps cartridge create_qti_node element course_data tags) as K.
  rewrite H in K. exact K.
Qed.

Lemma add_olx_nodes_extends_witness :
  extends (Element "vertical" [("display_name", "Unit")] [Element "html" [] []])
    (Element "vertical" [("display_name", "Unit")] [Element "html" [] []]) /\
  extends (Element "course" [] [Comment "kept"])
    (Element "course" [] [Comment "kept"; Element "chapter" [] []]).
Proof.
  split.
  - apply (add_olx_nodes_extends MoreExamples.keyless_video_cartridge Examples.no_qti
             (Element "vertical" [("display_name", "Unit")] [Element "html" [] []])
             [Outline (Some "Film") (Some "r1") None] []
             (Element "vertical" [("display_name", "Unit")] [Element "html" [] []])
             (Some (KeyError "youtube"))).
    reflexivity.
  - apply (add_olx_nodes_extends MoreExamples.keyless_video_cartridge Examples.no_qti
             (Element "course" [] [Comment "kept"])
             [Outline None None None] ["chapter"]
             (Element "course" [] [Comment "kept"; Element "chapter" [] []])
             None).
    reflexivity.
Defined.

(** X2: the document of [xml()] always has the generator comment and then
    the [course] element with the attributes [org], [course] and [name], in
    this order, whatever the outline and whether or not the build was
    interrupted by an exception. *)
Theorem xml_root cartridge create_qti_node :
  exists chapters,
    fst (xml cartridge create_qti_node) =
    {| documentNodes :=
         [Comment " Generated by cc2olx ";
          Element "course"
            [("org", get_course_org cartridge);
             ("course", "Some_cc_Course");
             ("name", get_title cartridge)]
            chapters] |}.
Proof.
  unfold xml.
  pose proof (add_olx_nodes_keeps cartridge create_qti_node
                (Element "course"
                   (set (set (set [] "org" (get_course_org cartridge))
                             "course" "Some_cc_Course")
                        "name" (get_title cartridge)) [])
                (normalized_children cartridge)
                ["chapter"; "sequential"; "vertical"]) as H.
  destruct (_add_olx_nodes cartridge create_qti_node _ _ _) as [xcourse raised].
  cbn in H. destruct H as [new ->]. exists new. reflexivity.
Qed.

(** X3: the loop over the outline nodes goes from left to right and stops
    at the first exception: on a sequence in two parts, the second part is
    mapped onto what the first part left, and not at all when the first
    part raised. *)
Theorem add_olx_nodes_app cartridge create_qti_node element data1 data2 tags :
  _add_olx_nodes cartridge create_qti_node element (data1 ++ data2)%list tags =
  match _add_olx_nodes cartridge create_qti_node element data1 tags with
  | (element1, Some e) => (element1, Some e)
  | (element1, None) => _add_olx_nodes cartridge create_qti_node element1 data2 tags
  end.
Proof.
  revert element. induction data1 as [|x l IH]; intros element; [reflexivity|].
  cbn [app _add_olx_nodes].
  destruct (add_element_data cartridge create_qti_node element x tags)
    as [element1 [e|]]; [reflexivity|].
  apply IH.
Qed.

(** ** Builds that cannot fail *)

(** One turn of the loop for an outline node whose builder gave one
    element, when the mapping of its children raises nothing. *)
Lemma add_children_single cartridge create_qti_node element_data tags
      tag attributes below t a cs child :
  match children element_data with
  | Some course_data =>
      _add_olx_nodes cartridge create_qti_node
        (Element tag
           match title element_data with
           | Some x => set attributes "display_name" x
           | None => attributes
           end below)
        course_data (tl tags) = (child, None)
  | None =>
      child = Element tag
                match title element_data with
                | Some x => set attributes "display_name" x
                | None => attributes
                end below
  end ->
  add_children cartridge create_qti_node (Element t a cs) element_data tags
    [Element tag attributes below]
  = (Element t a (cs ++ [child]), None).
Proof.
  intros H. cbn [add_children].
  destruct (title element_data) as [x|]; cbn [setAttribute appendChild];
    destruct (children element_data) as [course_data|];
    try rewrite H; try subst child; reflexivity.
Qed.

(** X4: an outline that stops above leaf depth always builds, and its
    elements depend neither on the resources of the cartridge nor on the
    QTI collaborator: the call appends the same nodes whatever these
    are, and raises nothing. *)
Theorem above_leaf_builds tags :
  forall course_data,
    forallb (above_leaf tags) course_data = true ->
    forall t a cs,
    exists new,
    forall cartridge create_qti_node,
      _add_olx_nodes cartridge create_qti_node (Element t a cs) course_data tags
      = (Element t a (cs ++ new), None).
Proof.
  induction tags as [|tag tags IH]; intros course_data.
  - destruct course_data; [|discriminate]. intros _ t a cs. exists [].
    intros. cbn. now rewrite app_nil_r.
  - induction course_data as [|x l IHl]; intros Hall t a cs.
    + exists []. intros. cbn. now rewrite app_nil_r.
    + cbn [forallb] in Hall. apply andb_true_iff in Hall. destruct Hall as [Hx Hl].
      cbn [above_leaf] in Hx.
      destruct (IH (Spec.children_of x) Hx tag
                  match title x with
                  | Some y => set [] "display_name" y
                  | None => []
                  end []) as [below Hbelow].
      destruct (IHl Hl t a
                  (cs ++ [Element tag
                            match title x with
                            | Some y => set [] "display_name" y
                            | None => []
                            end below])%list) as [new Hnew].
      exists (Element tag
                match title x with
                | Some y => set [] "display_name" y
                | None => []
                end below :: new).
      intros cartridge create_qti_node. cbn [_add_olx_nodes].
      rewrite add_element_data_eq. cbn [new_children]. unfold createElement.
      rewrite (add_children_single cartridge create_qti_node x (tag :: tags)
                 tag [] [] t a cs
                 (Element tag
                    match title x with
                    | Some y => set [] "display_name" y
                    | None => []
                    end below)).
      * rewrite Hnew, <- app_assoc. reflexivity.
      * specialize (Hbelow cartridge create_qti_node).
        unfold Spec.children_of in Hbelow. cbn [tl].
        destruct (children x) as [course_data|]; [exact Hbelow|].
        cbn in Hbelow. now injection Hbelow as <-.
Qed.

Lemma above_leaf_builds_witness :
  exists new,
  forall cartridge create_qti_node,
    _add_olx_nodes cartridge create_qti_node (Element "course" [] [])
      MoreExamples.chapters ["chapter"; "sequential"; "vertical"]
    = (Element "course" [] ([] ++ new), None).
Proof.
  apply (above_leaf_builds ["chapter"; "sequential"; "vertical"] MoreExamples.chapters).
  reflexivity.
Defined.

(** The content of an outline node of a cartridge of HTML pages: one
    [html] element. *)
Lemma html_only_new_children cartridge create_qti_node element_data tags :
  html_only cartridge ->
  exists tag below,
    new_children cartridge create_qti_node element_data tags = Ok [Element tag [] below].
Proof.
  intros Hc. destruct tags as [|tag tags]; cbn [new_children].
  - unfold _get_content.
    destruct (identifierref element_data) as [idref|].
    + specialize (Hc idref).
      destruct (get_resource_content cartridge idref) as [[ct|] d].
      * destruct Hc as [-> Hhtml]. cbn [String.eqb Ascii.eqb Bool.eqb LINK bind fst snd].
        unfold _create_olx_nodes. cbn [HTML String.eqb Ascii.eqb Bool.eqb].
        destruct (Details.html d) as [h|]; [|congruence].
        cbn. eauto.
      * cbn. eauto.
    + cbn. eauto.
  - unfold createElement. eauto.
Qed.

(** X5: a cartridge whose every resource is unresolved or a page of HTML
    always builds: whatever the outline, at whatever depth and with leaves
    that have children of their own, the mapping raises nothing. *)
Theorem html_only_builds cartridge create_qti_node :
  html_only cartridge ->
  forall course_data tags t a cs,
  exists new,
    _add_olx_nodes cartridge create_qti_node (Element t a cs) course_data tags
    = (Element t a (cs ++ new), None).
Proof.
  intros Hc.
  assert (Hnode : forall element_data tags t a cs,
             exists child,
               add_element_data cartridge create_qti_node (Element t a cs) element_data tags
               = (Element t a (cs ++ [child]), None)).
  { induction element_data as [ti i c IH] using OutlineNode_tree_ind.
    intros tags t a cs. rewrite add_element_data_eq.
    destruct (html_only_new_children cartridge create_qti_node (Outline ti i c) tags Hc)
      as (tag & below & ->).
    destruct c as [course_data|].
    - assert (Hall : forall t' a' cs',
                 exists new,
                   _add_olx_nodes cartridge create_qti_node (Element t' a' cs')
                     course_data (tl tags)
                   = (Element t' a' (cs' ++ new), None)).
      { induction IH as [|x l Hx _ IHl]; intros t' a' cs'.
        - exists []. cbn. now rewrite app_nil_r.
        - cbn [_add_olx_nodes].
          destruct (Hx (tl tags) t' a' cs') as [child ->].
          destruct (IHl t' a' (cs' ++ [child])%list) as [new ->].
          exists (child :: new). now rewrite <- app_assoc. }
      destruct (Hall tag
                  match ti with
                  | Some x => set [] "display_name" x
                  | None => []
                  end below) as [new Hnew].
      eexists. apply add_children_single. cbn [children title]. exact Hnew.
    - eexists. apply add_children_single. cbn [children title]. reflexivity. }
  induction course_data as [|x l IHl]; intros tags t a cs.
  - exists []. cbn. now rewrite app_nil_r.
  - cbn [_add_olx_nodes].
    destruct (Hnode x tags t a cs) as [child ->].
    destruct (IHl tags t a (cs ++ [child])%list) as [new ->].
    exists (child :: new). now rewrite <- app_assoc.
Qed.

Lemma html_only_builds_witness :
  exists new,
    _add_olx_nodes Examples.course_cartridge Examples.no_qti (Element "course" [] [])
      (normalized_children Examples.course_cartridge)
      ["chapter"; "sequential"; "vertical"]
    = (Element "course" [] ([] ++ new), None).
Proof.
  apply (html_only_builds Examples.course_cartridge Examples.no_qti).
  intros idref. cbn. split; [reflexivity|discriminate].
Defined.

(** ** Display names *)

(** An attribute that was set has the value it was given. *)
Lemma lookup_set_same attributes name value :
  lookup (set attributes name value) name = Some value.
Proof.
  induction attributes as [|[n v] rest IH]; cbn [set lookup].
  - now rewrite String.eqb_refl.
  - destruct (String.eqb n name) eqn:E; cbn [lookup]; rewrite E; auto.
Qed.

(** X6: every node that a call which raises nothing appends for an outline
    node with a title has the title as [display_name]: the containers, and
    at leaf depth each node of the content, whatever [display_name] its
    builder had given it. *)
Theorem display_name_is_title cartridge create_qti_node element element_data tags
        element' t :
  add_element_data cartridge create_qti_node element element_data tags = (element', None) ->
  title element_data = Some t ->
  exists new,
    childNodes element' = (childNodes element ++ new)%list /\
    Forall (fun node => attribute node "display_name" = Some t) new.
Proof.
  intros Hrun Htitle.
  destruct (refines_node_all cartridge create_qti_node element_data _ _ _ Hrun)
    as (nodes & Hspec & Hatt).
  exists nodes. split; [now apply attach_childNodes|].
  rewrite map_node_eq in Hspec.
  destruct (new_children cartridge create_qti_node element_data tags)
    as [built|e]; [|discriminate].
  cbn [bind] in Hspec. apply mapM_Forall2 in Hspec. clear Hrun Hatt.
  induction Hspec as [|child node built nodes Hdec _ IH]; constructor; [|exact IH].
  unfold Spec.decorate, Spec.with_title in Hdec. rewrite Htitle in Hdec.
  destruct child as [tag attributes below| |]; cbn [setAttribute bind] in Hdec;
    try discriminate.
  destruct (match children element_data with
            | Some course_data =>
                Spec.map_all cartridge create_qti_node course_data (tl tags)
            | None => Ok []
            end) as [under|e]; [|discriminate].
  cbn [bind] in Hdec. rewrite attach_element in Hdec. injection Hdec as <-.
  cbn [attribute]. apply lookup_set_same.
Qed.

Lemma display_name_is_title_witness :
  exists new,
    childNodes
      (fst (add_element_data MoreExamples.lti_cartridge Examples.no_qti
              (Element "vertical" [] [])
              (Outline (Some "A tool") (Some "r1") None) []))
    = ([] ++ new)%list /\
    Forall (fun node => attribute node "display_name" = Some "A tool") new.
Proof.
  apply (display_name_is_title MoreExamples.lti_cartridge Examples.no_qti
           (Element "vertical" [] [])
           (Outline (Some "A tool") (Some "r1") None) []
           (fst (add_element_data MoreExamples.lti_cartridge Examples.no_qti
                   (Element "vertical" [] [])
                   (Outline (Some "A tool") (Some "r1") None) []))
           "A tool");
    reflexivity.
Defined.

(** ** The LTI builder *)

(** X7: [_create_lti_node] raises exactly when one of the six keys it
    reads is absent, and the [KeyError] names the first absent key in the
    order [custom_parameters], [description], [title], [height], [width],
    [launch_url]; with the six keys it returns one [lti_consumer] element
    of nine attributes, the heights and widths twice, and the parameters
    as the bracketed list of the quoted [key=value], in the order of the
    mapping ([[]] for an empty mapping). *)
Theorem create_lti_node_keys details :
  match first_absent (lti_keys details) with
  | Some key => _create_lti_node details = Raise (KeyError key)
  | None =>
      exists params description title height width launch_url,
        Details.custom_parameters details = Some params /\
        Details.description details = Some description /\
        Details.title details = Some title /\
        Details.height details = Some height /\
        Details.width details = Some width /\
        Details.launch_url details = Some launch_url /\
        _create_lti_node details =
        Ok (Element "lti_consumer"
              [("custom_parameters",
                "[" ++ Str.join ", "
                         (map (fun kv => Str.dquote ++ fst kv ++ "=" ++ snd kv ++ Str.dquote)
                              params)
                    ++ "]");
               ("description", description);
               ("display_name", title);
               ("inline_height", height);
               ("inline_width", width);
               ("launch_url", launch_url);
               ("modal_height", height);
               ("modal_width", width);
               ("xblock-family", "xblock.v1")]
              [])
  end.
Proof.
  destruct details as [h hr tx y ti de lu he wi cp].
  unfold lti_keys, _create_lti_node. cbn [Details.custom_parameters Details.description
    Details.title Details.height Details.width Details.launch_url].
  destruct cp as [params|]; [|reflexivity].
  destruct de as [description|]; [|reflexivity].
  destruct ti as [title|]; [|reflexivity].
  destruct he as [height|]; [|reflexivity].
  destruct wi as [width|]; [|reflexivity].
  destruct lu as [launch_url|]; [|reflexivity].
  cbn [first_absent]. exists params, description, title, height, width, launch_url.
  repeat (split; [reflexivity|]).
  cbn [subscript bind createElement setAttribute set String.eqb Ascii.eqb Bool.eqb].
  do 3 f_equal. f_equal. f_equal. f_equal. f_equal.
  apply map_ext. intros [k v]. reflexivity.
Qed.

(** ** What a match says of the text *)

(** [sub in s] is: [s] is some text, [sub], some text. *)
Lemma prefix_self sub rest : prefix sub (sub ++ rest) = true.
Proof.
  induction sub as [|c sub IH]; [destruct rest; reflexivity|].
  cbn [append prefix]. destruct (ascii_dec c c); [exact IH|congruence].
Qed.

Lemma contains_prefix sub s : prefix sub s = true -> Str.contains sub s = true.
Proof.
  intros H. destruct s; cbn [Str.contains]; now rewrite H.
Qed.

Lemma contains_inv sub s :
  Str.contains sub s = true -> exists a b, s = a ++ sub ++ b.
Proof.
  induction s as [|c s IH]; cbn [Str.contains]; intros H.
  - apply orb_true_iff in H. destruct H as [H|H]; [|discriminate].
    destruct (prefix_append _ _ H) as [b Hb]. exists EmptyString, b. exact Hb.
  - apply orb_true_iff in H. destruct H as [H|H].
    + destruct (prefix_append _ _ H) as [b Hb]. exists EmptyString, b. exact Hb.
    + destruct (IH H) as (a & b & ->). exists (String c a), b. reflexivity.
Qed.

Lemma contains_intro a sub b : Str.contains sub (a ++ sub ++ b) = true.
Proof.
  induction a as [|c a IH]; cbn [append].
  - apply contains_prefix, prefix_self.
  - cbn [Str.contains]. rewrite IH. apply orb_true_r.
Qed.

Lemma append_nil_r (s : string) : s ++ EmptyString = s.
Proof.
  induction s as [|c s IH]; cbn [append]; [reflexivity|]. now rewrite IH.
Qed.

Lemma contains_suffix w s : Str.contains s (w ++ s) = true.
Proof.
  rewrite <- (append_nil_r s) at 2. apply contains_intro.
Qed.

Lemma append_assoc (s1 s2 s3 : string) : (s1 ++ s2) ++ s3 = s1 ++ (s2 ++ s3).
Proof.
  induction s1 as [|c s1 IH]; cbn [append]; [reflexivity|]. now rewrite IH.
Qed.

(** What is in a part is in the whole. *)
Lemma contains_trans sub mid s :
  Str.contains sub mid = true -> Str.contains mid s = true -> Str.contains sub s = true.
Proof.
  intros H1 H2.
  destruct (contains_inv _ _ H1) as (a & b & ->).
  destruct (contains_inv _ _ H2) as (a' & b' & ->).
  replace (a' ++ (a ++ sub ++ b) ++ b') with ((a' ++ a) ++ sub ++ (b ++ b')).
  - apply contains_intro.
  - now rewrite !append_assoc.
Qed.

Section ItemInversion.

Variable R : Type.
Variable cls : ascii -> bool.
Variable k : string -> option R.

Lemma stop_inv s w r : Re.stop k s = Some (w, r) -> w = EmptyString /\ k s = Some r.
Proof.
  unfold Re.stop. destruct (k s); [|discriminate]. intros [= <- <-]. auto.
Qed.

Lemma took_stop s w r : Re.stop k s = Some (w, r) -> took cls k s w r.
Proof.
  intros H. apply stop_inv in H. destruct H as [-> H].
  split; [reflexivity|]. now exists s.
Qed.

Lemma took_consumed c s w r :
  cls c = true -> took cls k s w r -> took cls k (String c s) (String c w) r.
Proof.
  intros Hc (Hw & s' & -> & Hk). split.
  - cbn. now rewrite Hc, Hw.
  - now exists s'.
Qed.

Lemma consumed_inv c (x : option (string * R)) w r :
  Re.consumed c x = Some (w, r) -> exists w', w = String c w' /\ x = Some (w', r).
Proof.
  destruct x as [[w' r']|]; cbn; [|discriminate]. intros [= <- <-]. eauto.
Qed.

Lemma greedy0_inv s w r : Re.greedy0 cls k s = Some (w, r) -> took cls k s w r.
Proof.
  revert w r. induction s as [|c s IH]; intros w r; cbn [Re.greedy0].
  - apply took_stop.
  - destruct (cls c) eqn:Hc; [|apply took_stop].
    destruct (Re.consumed c (Re.greedy0 cls k s)) as [[w1 r1]|] eqn:E.
    + intros [= <- <-]. apply consumed_inv in E. destruct E as (w' & -> & E).
      apply took_consumed; auto.
    + apply took_stop.
Qed.

Lemma lazy0_inv s w r : Re.lazy0 cls k s = Some (w, r) -> took cls k s w r.
Proof.
  revert w r. induction s as [|c s IH]; intros w r; cbn [Re.lazy0].
  - destruct (Re.stop k EmptyString) as [[w1 r1]|] eqn:E; [|discriminate].
    intros [= <- <-]. now apply took_stop.
  - destruct (Re.stop k (String c s)) as [[w1 r1]|] eqn:E.
    + intros [= <- <-]. now apply took_stop.
    + destruct (cls c) eqn:Hc; [|discriminate].
      intros H. apply consumed_inv in H. destruct H as (w' & -> & H).
      apply took_consumed; auto.
Qed.

(** Every quantifier but [*] takes at least one character. *)
Lemma run_inv q s w r :
  Re.run cls k q s = Some (w, r) ->
  took cls k s w r /\ (q <> Re.Greedy0 -> w <> EmptyString).
Proof.
  destruct q; cbn [Re.run].
  - destruct s as [|c s]; cbn [Re.once]; [discriminate|].
    destruct (cls c) eqn:Hc; [|discriminate].
    intros H. apply consumed_inv in H. destruct H as (w' & -> & H).
    split; [|discriminate]. apply took_consumed; auto. now apply took_stop.
  - intros H. split; [now apply greedy0_inv|congruence].
  - destruct s as [|c s]; cbn [Re.greedy1]; [discriminate|].
    destruct (cls c) eqn:Hc; [|discriminate].
    intros H. apply consumed_inv in H. destruct H as (w' & -> & H).
    split; [|discriminate]. apply took_consumed; auto. now apply greedy0_inv.
  - destruct s as [|c s]; cbn [Re.lazy1]; [discriminate|].
    destruct (cls c) eqn:Hc; [|discriminate].
    intros H. apply consumed_inv in H. destruct H as (w' & -> & H).
    split; [|discriminate]. apply took_consumed; auto. now apply lazy0_inv.
Qed.

End ItemInversion.

(** A match consumed the head of the text, and its groups are parts of the
    text. *)
Lemma match_here_inv p :
  forall s gs rest,
    Re.match_here p s = Some (gs, rest) ->
    (exists m, s = m ++ rest) /\
    Forall (fun g => Str.contains g s = true) gs.
Proof.
  induction p as [|it p IH]; intros s gs rest; cbn [Re.match_here].
  - intros [= <- <-]. split; [now exists EmptyString|constructor].
  - destruct (Re.run (Re.chars it) (Re.match_here p) (Re.quant it) s)
      as [[w [gs' rest']]|] eqn:E; [|discriminate].
    intros [= <- <-]. apply run_inv in E. destruct E as [(_ & s' & -> & Hk) _].
    destruct (IH _ _ _ Hk) as [[m ->] Hgs]. split.
    + exists (w ++ m). now rewrite append_assoc.
    + assert (Hgs' : Forall (fun g => Str.contains g (w ++ m ++ rest') = true) gs').
      { eapply Forall_impl; [|exact Hgs]. cbn. intros g Hg.
        eapply contains_trans; [exact Hg|]. apply contains_suffix. }
      destruct (Re.group it); [constructor; [|exact Hgs']|exact Hgs'].
      apply (contains_intro EmptyString w (m ++ rest')).
Qed.

(** Every value of [findall] is the group of a match at some place of the
    text. *)
Lemma findall_from_origin p s :
  forall skip,
    Forall (fun v => exists a s1 gs rest,
                s = a ++ s1 /\ Re.match_here p s1 = Some (gs, rest) /\ v = Re.group1 gs)
           (Re.findall_from p s skip).
Proof.
  assert (Hshift : forall c s' l,
             Forall (fun v => exists a s1 gs rest,
                         s' = a ++ s1 /\ Re.match_here p s1 = Some (gs, rest) /\
                         v = Re.group1 gs) l ->
             Forall (fun v => exists a s1 gs rest,
                         String c s' = a ++ s1 /\ Re.match_here p s1 = Some (gs, rest) /\
                         v = Re.group1 gs) l).
  { intros c s' l H. eapply Forall_impl; [|exact H]. cbn.
    intros v (a & s1 & gs & rest & -> & Hm & ->).
    exists (String c a), s1, gs, rest. auto. }
  induction s as [|c s IH]; intros skip.
  - destruct skip; cbn [Re.findall_from]; [|constructor].
    destruct (Re.match_here p EmptyString) as [[gs rest]|] eqn:E; constructor; [|constructor].
    exists EmptyString, EmptyString, gs, rest. auto.
  - destruct skip as [|n]; cbn [Re.findall_from]; [|apply Hshift, IH].
    destruct (Re.match_here p (String c s)) as [[gs rest]|] eqn:E.
    + constructor; [|apply Hshift, IH].
      exists EmptyString, (String c s), gs, rest. auto.
    + apply Hshift, IH.
Qed.

(** The values of [findall] are parts of the text. *)
Lemma findall_contains p s v :
  In v (Re.findall p s) -> Str.contains v s = true.
Proof.
  intros Hin. pose proof (findall_from_origin p s 0) as H.
  rewrite Forall_forall in H. destruct (H v Hin) as (a & s1 & gs & rest & -> & Hm & ->).
  apply match_here_inv in Hm. destruct Hm as [_ Hgs].
  destruct gs as [|g gs]; cbn [Re.group1 hd].
  - apply contains_prefix. destruct (a ++ s1); reflexivity.
  - inversion Hgs as [|? ? Hg _]; subst.
    eapply contains_trans; [exact Hg|apply contains_suffix].
Qed.


(** ** The static-link rewriter, continued *)

(** X8: a text in which [IMS-CC-FILEBASE] does not occur is returned as it
    is, whatever [src] attributes and percent escapes it has; as the body
    of a page, it is the CDATA section of the [html] element character for
    character. *)
Theorem static_links_no_placeholder html :
  Str.contains "IMS-CC-FILEBASE" html = false ->
  _process_static_links html = html /\
  forall create_qti_node,
    _create_olx_nodes create_qti_node "html" (Details.of_html html)
    = Ok [Element "html" [] [CDATASection html]].
Proof.
  intros Hno.
  assert (H : _process_static_links html = html).
  { apply static_links_no_token.
    destruct (existsb (Str.contains "IMS-CC-FILEBASE") (Re.findall src_pattern html))
      eqn:E; [|reflexivity].
    apply existsb_exists in E. destruct E as (src & Hin & Htoken).
    apply findall_contains in Hin.
    rewrite (contains_trans _ _ _ Htoken Hin) in Hno. discriminate. }
  split; [exact H|]. intros q. unfold _create_olx_nodes.
  cbn [HTML String.eqb Ascii.eqb Bool.eqb Details.html Details.of_html subscript bind].
  rewrite H. reflexivity.
Qed.

Lemma static_links_no_placeholder_witness :
  let html := "<img src=" ++ Str.dquote ++ "a%20b.png" ++ Str.dquote ++ "> &amp; <b>x</b>" in
  _process_static_links html = html /\
  _create_olx_nodes Examples.no_qti "html" (Details.of_html html)
  = Ok [Element "html" [] [CDATASection html]].
Proof.
  cbv zeta.
  destruct (static_links_no_placeholder
              ("<img src=" ++ Str.dquote ++ "a%20b.png" ++ Str.dquote ++ "> &amp; <b>x</b>")
              eq_refl) as [H1 H2].
  split; [exact H1|apply H2].
Defined.




Section Extremes.

Variable R : Type.
Variable cls : ascii -> bool.
Variable k : string -> option R.



End Extremes.










(** ** The rewriting of one [src] attribute *)














(** ** Links *)


(** X13: content resolution never returns the type [link]: a resource of
    that type is classified, or the classification raises. *)
Theorem get_content_never_link cartridge element_data content_type details :
  _get_content cartridge element_data = Ok (content_type, details) ->
  content_type <> "link".
Proof.
  unfold _get_content.
  destruct (match identifierref element_data with
            | Some idref => get_resource_content cartridge idref
            | None => (None, Details.empty)
            end) as [[ct|] d].
  - destruct (String.eqb ct LINK) eqn:E.
    + unfold process_link. destruct (Details.href d) as [href|]; [|discriminate].
      cbn [subscript bind].
      destruct (Re.search youtube_pattern href); intros [= <- <-]; discriminate.
    + intros [= <- <-]. now apply String.eqb_neq in E.
  - cbn. intros [= <- <-]. discriminate.
Qed.

Lemma get_content_never_link_witness :
  _get_content MoreExamples.video_cartridge (Outline None (Some "r1") None)
  = Ok ("video", Details.of_youtube "gQ-cZRmHfs4") /\
  "video" <> "link".
Proof.
  split; [reflexivity|].
  apply (get_content_never_link MoreExamples.video_cartridge
           (Outline None (Some "r1") None) "video" (Details.of_youtube "gQ-cZRmHfs4")).
  reflexivity.
Defined.

(** ** Exceptions in the loop *)

(** X14: when the content of an outline node cannot be resolved or built,
    whatever the exception, the loop stops there with that exception: the
    element is as the outline nodes before left it, with nothing of this
    node and nothing of the nodes after it. *)
Theorem failing_item_adds_nothing cartridge create_qti_node element before
        element_data after tags element1 e :
  _add_olx_nodes cartridge create_qti_node element before tags = (element1, None) ->
  new_children cartridge create_qti_node element_data tags = Raise e ->
  _add_olx_nodes cartridge create_qti_node element
    (before ++ element_data :: after)%list tags
  = (element1, Some e).
Proof.
  intros Hbefore Hfail. revert element Hbefore.
  induction before as [|x l IH]; intros element Hbefore; cbn [app _add_olx_nodes] in *.
  - injection Hbefore as <-. rewrite add_element_data_eq, Hfail. reflexivity.
  - destruct (add_element_data cartridge create_qti_node element x tags)
      as [element2 [e2|]]; [discriminate|].
    now apply IH.
Qed.

Lemma failing_item_adds_nothing_witness :
  _add_olx_nodes MoreExamples.keyless_video_cartridge Examples.no_qti
    (Element "vertical" [] [])
    [Outline None None None; Outline (Some "Film") (Some "r1") None; Outline None None None]
    []
  = (Element "vertical" [] [Element "html" [] [CDATASection "<p>MISSING CONTENT</p>"]],
     Some (KeyError "youtube")).
Proof.
  apply (failing_item_adds_nothing MoreExamples.keyless_video_cartridge Examples.no_qti
           (Element "vertical" [] [])
           [Outline None None None] (Outline (Some "Film") (Some "r1") None)
           [Outline None None None] []);
    reflexivity.
Defined.
